(** * Function pointer whitelists (unbound 1.4.8, util/fptr_wlist.h)

    The header declares one checker per callback role and defines the
    assertion macro [fptr_ok] that every call site wraps around a checker
    call.  This development embeds

    - the C statements the macro is made of, over a small monad of
      process states in which a computation either returns, ends the
      process, or runs out of fuel (loops);
    - the macro [fptr_ok] itself, as written in the header;
    - the header as a sequence of preprocessor lines, to see under which
      build flags the macro is defined;
    - the declared parameter type of every checker;
    - the checkers' bodies and [fatal_exit], neither of which is defined
      in the header: both are modelled from the specification. *)

From Stdlib Require Import ZArith NArith Ascii String List Lia DecimalString.
From Stdlib Require DecimalPos DecimalZ.
From stdpp Require Import base strings gmap list.

Open Scope Z_scope.

(** ** Callback roles

    One constructor per [fptr_whitelist_*] declaration, in the order of
    the header. *)

Inductive category : Set :=
| comm_point | comm_point_raw | comm_timer | comm_signal | event
| pending_udp | pending_tcp | serviced_query
| rbtree_cmp
| hash_sizefunc | hash_compfunc | hash_delkeyfunc | hash_deldatafunc
| hash_markdelfunc
| modenv_send_query | modenv_detach_subs | modenv_attach_sub
| modenv_kill_sub | modenv_detect_cycle
| mod_init | mod_deinit | mod_operate | mod_inform_super | mod_clear
| mod_get_mem
| alloc_cleanup | tube_listen | mesh_cb | print_func.

#[global] Instance category_eq_dec : EqDecision category.
Proof. solve_decision. Defined.

Definition all_categories : list category :=
  [ comm_point; comm_point_raw; comm_timer; comm_signal; event;
    pending_udp; pending_tcp; serviced_query;
    rbtree_cmp;
    hash_sizefunc; hash_compfunc; hash_delkeyfunc; hash_deldatafunc;
    hash_markdelfunc;
    modenv_send_query; modenv_detach_subs; modenv_attach_sub;
    modenv_kill_sub; modenv_detect_cycle;
    mod_init; mod_deinit; mod_operate; mod_inform_super; mod_clear;
    mod_get_mem;
    alloc_cleanup; tube_listen; mesh_cb; print_func ].

(** ** C types of the declarations

    Typedef names ([size_t], [comm_point_callback_t], ...) stand for
    themselves: the headers that define them are included, not shown. *)

Inductive ctype : Set :=
| Tvoid | Tchar | Tshort | Tint
| Tstruct (tag : string)
| Tenum (tag : string)
| Tnamed (name : string)
| Tconst (t : ctype)
| Tptr (t : ctype)
| Tfun (ret : ctype) (params : ctypes)
with ctypes : Set :=
| Tnil
| Tcons (t : ctype) (ts : ctypes).

Fixpoint ctype_eq_dec (a b : ctype) : {a = b} + {a <> b}
with ctypes_eq_dec (a b : ctypes) : {a = b} + {a <> b}.
Proof.
  - decide equality; apply String.string_dec.
  - decide equality.
Defined.

#[global] Instance ctype_eq : EqDecision ctype := ctype_eq_dec.

Definition params_of (l : list ctype) : ctypes := fold_right Tcons Tnil l.

(** pointer to a function returning [ret] with parameters [l] *)
Definition fnptr (ret : ctype) (l : list ctype) : ctype :=
  Tptr (Tfun ret (params_of l)).

Definition qstate_p : ctype := Tptr (Tstruct "module_qstate").
Definition env_p : ctype := Tptr (Tstruct "module_env").
Definition qinfo_p : ctype := Tptr (Tstruct "query_info").
Definition outbound_p : ctype := Tptr (Tstruct "outbound_entry").
Definition void_p : ctype := Tptr Tvoid.
Definition cvoid_p : ctype := Tptr (Tconst Tvoid).

(** The type of the parameter [fptr] of each checker, as declared. *)
Definition param_type (c : category) : ctype :=
  match c with
  | comm_point => Tptr (Tnamed "comm_point_callback_t")
  | comm_point_raw => Tptr (Tnamed "comm_point_callback_t")
  | comm_timer => fnptr Tvoid [void_p]
  | comm_signal => fnptr Tvoid [Tint; void_p]
  | event => fnptr Tvoid [Tint; Tshort; void_p]
  | pending_udp => Tptr (Tnamed "comm_point_callback_t")
  | pending_tcp => Tptr (Tnamed "comm_point_callback_t")
  | serviced_query => Tptr (Tnamed "comm_point_callback_t")
  | rbtree_cmp => fnptr Tint [cvoid_p; cvoid_p]
  | hash_sizefunc => Tnamed "lruhash_sizefunc_t"
  | hash_compfunc => Tnamed "lruhash_compfunc_t"
  | hash_delkeyfunc => Tnamed "lruhash_delkeyfunc_t"
  | hash_deldatafunc => Tnamed "lruhash_deldatafunc_t"
  | hash_markdelfunc => Tnamed "lruhash_markdelfunc_t"
  | modenv_send_query =>
      fnptr outbound_p
        [ Tptr (Tnamed "uint8_t"); Tnamed "size_t"; Tnamed "uint16_t";
          Tnamed "uint16_t"; Tnamed "uint16_t"; Tint; Tint;
          Tptr (Tstruct "sockaddr_storage"); Tnamed "socklen_t"; qstate_p ]
  | modenv_detach_subs => fnptr Tvoid [qstate_p]
  | modenv_attach_sub =>
      fnptr Tint [qstate_p; qinfo_p; Tnamed "uint16_t"; Tint; Tptr qstate_p]
  | modenv_kill_sub => fnptr Tvoid [qstate_p]
  | modenv_detect_cycle =>
      fnptr Tint [qstate_p; qinfo_p; Tnamed "uint16_t"; Tint]
  | mod_init => fnptr Tint [env_p; Tint]
  | mod_deinit => fnptr Tvoid [env_p; Tint]
  | mod_operate =>
      fnptr Tvoid [qstate_p; Tenum "module_ev"; Tint; outbound_p]
  | mod_inform_super => fnptr Tvoid [qstate_p; Tint; qstate_p]
  | mod_clear => fnptr Tvoid [qstate_p; Tint]
  | mod_get_mem => fnptr (Tnamed "size_t") [env_p; Tint]
  | alloc_cleanup => fnptr Tvoid [void_p]
  | tube_listen => Tptr (Tnamed "tube_callback_t")
  | mesh_cb => Tnamed "mesh_cb_func_t"
  | print_func => fnptr Tvoid [Tptr Tchar; void_p]
  end.

(** The name under which each checker is declared. *)
Definition checker_name (c : category) : string :=
  match c with
  | comm_point => "fptr_whitelist_comm_point"
  | comm_point_raw => "fptr_whitelist_comm_point_raw"
  | comm_timer => "fptr_whitelist_comm_timer"
  | comm_signal => "fptr_whitelist_comm_signal"
  | event => "fptr_whitelist_event"
  | pending_udp => "fptr_whitelist_pending_udp"
  | pending_tcp => "fptr_whitelist_pending_tcp"
  | serviced_query => "fptr_whitelist_serviced_query"
  | rbtree_cmp => "fptr_whitelist_rbtree_cmp"
  | hash_sizefunc => "fptr_whitelist_hash_sizefunc"
  | hash_compfunc => "fptr_whitelist_hash_compfunc"
  | hash_delkeyfunc => "fptr_whitelist_hash_delkeyfunc"
  | hash_deldatafunc => "fptr_whitelist_hash_deldatafunc"
  | hash_markdelfunc => "fptr_whitelist_hash_markdelfunc"
  | modenv_send_query => "fptr_whitelist_modenv_send_query"
  | modenv_detach_subs => "fptr_whitelist_modenv_detach_subs"
  | modenv_attach_sub => "fptr_whitelist_modenv_attach_sub"
  | modenv_kill_sub => "fptr_whitelist_modenv_kill_sub"
  | modenv_detect_cycle => "fptr_whitelist_modenv_detect_cycle"
  | mod_init => "fptr_whitelist_mod_init"
  | mod_deinit => "fptr_whitelist_mod_deinit"
  | mod_operate => "fptr_whitelist_mod_operate"
  | mod_inform_super => "fptr_whitelist_mod_inform_super"
  | mod_clear => "fptr_whitelist_mod_clear"
  | mod_get_mem => "fptr_whitelist_mod_get_mem"
  | alloc_cleanup => "fptr_whitelist_alloc_cleanup"
  | tube_listen => "fptr_whitelist_tube_listen"
  | mesh_cb => "fptr_whitelist_mesh_cb"
  | print_func => "fptr_whitelist_print_func"
  end.

(** ** Process states and computations *)

(** What a running process holds, as far as this header is concerned:
    the whitelists (addresses of functions, hence never null), the
    mutable memory a check expression may touch, and the lines written to
    the log so far. *)
Record process : Type := mkProcess {
  wlist : category -> list positive;
  mem : gmap N Z;
  logged : list string
}.

Definition log_line (msg : string) (s : process) : process :=
  {| wlist := wlist s; mem := mem s; logged := logged s ++ [msg] |}.

Inductive outcome (A : Type) : Type :=
| Returns (a : A) (s : process)   (* control comes back with a value *)
| Exits (s : process)             (* the process ended in state [s] *)
| OutOfFuel.                      (* a loop did not finish in time *)

Arguments Returns {A} a s.
Arguments Exits {A} s.
Arguments OutOfFuel {A}.

Definition M (A : Type) : Type := process -> outcome A.

Definition run {A} (m : M A) (s : process) : outcome A := m s.

#[global] Instance M_ret : MRet M := fun A a s => Returns a s.

#[global] Instance M_bind : MBind M := fun A B f m s =>
  match m s with
  | Returns a s' => f a s'
  | Exits s' => Exits s'
  | OutOfFuel => OutOfFuel
  end.

(** ** The C constructs the macro uses *)

(** [!e] *)
Definition c_lnot (e : M Z) : M Z :=
  v ← e; mret (if v =? 0 then 1 else 0).

(** [if(e) st] without an else branch *)
Definition c_if (e : M Z) (st : M unit) : M unit :=
  v ← e; if v =? 0 then mret tt else st.

(** [do st while(e);] *)
Fixpoint do_while (fuel : nat) (st : M unit) (e : M Z) : M unit :=
  match fuel with
  | O => fun _ => OutOfFuel
  | S n => st ;; (v ← e; if v =? 0 then mret tt else do_while n st e)
  end.

(** ** printf-style formatting of the diagnostic *)

Inductive farg : Set :=
| ArgS (s : string)   (* a [char*] argument *)
| ArgD (n : Z).       (* an [int] argument *)

Definition decimal (n : Z) : string := NilZero.string_of_int (Z.to_int n).

(** conversion [%s] or [%d] applied to the next argument *)
Definition convert (conv : ascii) (a : farg) : string :=
  match a with
  | ArgS s => if Ascii.eqb conv "s"%char then s else EmptyString
  | ArgD n => if Ascii.eqb conv "d"%char then decimal n else EmptyString
  end.

(** The directives that occur in the macro's format, [%s] and [%d], and
    [%%]; any other character is copied. *)
Fixpoint vformat (format : string) (args : list farg) : string :=
  match format with
  | EmptyString => EmptyString
  | String ch rest =>
      if Ascii.eqb ch "%"%char then
        match rest with
        | EmptyString => EmptyString
        | String conv rest' =>
            if Ascii.eqb conv "%"%char then String "%"%char (vformat rest' args)
            else match args with
                 | [] => vformat rest' []
                 | a :: args' => (convert conv a ++ vformat rest' args')%string
                 end
        end
      else String ch (vformat rest args)
  end.

(** [part] occurs in [msg] *)
Definition mentions (msg part : string) : Prop :=
  exists before after : string, msg = (before ++ part ++ after)%string.

(** Modelled from the spec: [fatal_exit], the host's report-and-terminate
    primitive, whose definition (util/log.c) is not in the header.  It
    emits the diagnostic built from its printf-style arguments and ends
    the process; control does not come back. *)
Definition fatal_exit (format : string) (args : list farg) : M unit :=
  fun s => Exits (log_line (vformat format args) s).

(** ** The assertion macro *)

(** Where a macro is expanded: [__FILE__], [__LINE__], [__func__]. *)
Record call_site : Set := mkSite {
  site_file : string;
  site_line : Z;
  site_func : string
}.

(** A macro argument: its spelling (what [#x] yields) and what
    evaluating it does. *)
Record check_expr : Type := mkExpr {
  text : string;
  eval : M Z
}.

Definition fptr_ok_format : string := "%s:%d: %s: pointer whitelist %s failed".

Definition fptr_ok_args (site : call_site) (x : check_expr) : list farg :=
  [ ArgS (site_file site); ArgD (site_line site); ArgS (site_func site);
    ArgS (text x) ].

(** [#define fptr_ok(x) do { if(!(x)) fatal_exit(...); } while(0);] *)
Definition fptr_ok (fuel : nat) (site : call_site) (x : check_expr) : M unit :=
  do_while fuel
    (c_if (c_lnot (eval x))
       (fatal_exit fptr_ok_format (fptr_ok_args site x)))
    (mret 0).

(** ** The checkers *)

(** Modelled from the spec: the body shared by all checkers (they are
    defined in util/fptr_wlist.c; the header only declares them).  A
    linear scan of the fixed list of one role, comparing addresses for
    identity and stopping at the first match; the result is the C truth
    value, [1] for a member and [0] otherwise. *)
Fixpoint whitelist_scan (entries : list positive) (fptr : N) : Z :=
  match entries with
  | [] => 0
  | f :: rest =>
      if (fptr =? Npos f)%N then 1 else whitelist_scan rest fptr
  end.

(** Modelled from the spec: a checker reads the list of its own role and
    nothing else (util/fptr_wlist.c is not among the sources). *)
Definition check_whitelist (c : category) (fptr : N) : M Z :=
  fun s => Returns (whitelist_scan (wlist s c) fptr) s.

Definition fptr_whitelist_comm_point := check_whitelist comm_point.
Definition fptr_whitelist_comm_point_raw := check_whitelist comm_point_raw.
Definition fptr_whitelist_comm_timer := check_whitelist comm_timer.
Definition fptr_whitelist_comm_signal := check_whitelist comm_signal.
Definition fptr_whitelist_event := check_whitelist event.
Definition fptr_whitelist_pending_udp := check_whitelist pending_udp.
Definition fptr_whitelist_pending_tcp := check_whitelist pending_tcp.
Definition fptr_whitelist_serviced_query := check_whitelist serviced_query.
Definition fptr_whitelist_rbtree_cmp := check_whitelist rbtree_cmp.
Definition fptr_whitelist_hash_sizefunc := check_whitelist hash_sizefunc.
Definition fptr_whitelist_hash_compfunc := check_whitelist hash_compfunc.
Definition fptr_whitelist_hash_delkeyfunc := check_whitelist hash_delkeyfunc.
Definition fptr_whitelist_hash_deldatafunc := check_whitelist hash_deldatafunc.
Definition fptr_whitelist_hash_markdelfunc := check_whitelist hash_markdelfunc.
Definition fptr_whitelist_modenv_send_query := check_whitelist modenv_send_query.
Definition fptr_whitelist_modenv_detach_subs := check_whitelist modenv_detach_subs.
Definition fptr_whitelist_modenv_attach_sub := check_whitelist modenv_attach_sub.
Definition fptr_whitelist_modenv_kill_sub := check_whitelist modenv_kill_sub.
Definition fptr_whitelist_modenv_detect_cycle := check_whitelist modenv_detect_cycle.
Definition fptr_whitelist_mod_init := check_whitelist mod_init.
Definition fptr_whitelist_mod_deinit := check_whitelist mod_deinit.
Definition fptr_whitelist_mod_operate := check_whitelist mod_operate.
Definition fptr_whitelist_mod_inform_super := check_whitelist mod_inform_super.
Definition fptr_whitelist_mod_clear := check_whitelist mod_clear.
Definition fptr_whitelist_mod_get_mem := check_whitelist mod_get_mem.
Definition fptr_whitelist_alloc_cleanup := check_whitelist alloc_cleanup.
Definition fptr_whitelist_tube_listen := check_whitelist tube_listen.
Definition fptr_whitelist_mesh_cb := check_whitelist mesh_cb.
Definition fptr_whitelist_print_func := check_whitelist print_func.

(** The checker declared for a role. *)
Definition checker (c : category) : N -> M Z :=
  match c with
  | comm_point => fptr_whitelist_comm_point
  | comm_point_raw => fptr_whitelist_comm_point_raw
  | comm_timer => fptr_whitelist_comm_timer
  | comm_signal => fptr_whitelist_comm_signal
  | event => fptr_whitelist_event
  | pending_udp => fptr_whitelist_pending_udp
  | pending_tcp => fptr_whitelist_pending_tcp
  | serviced_query => fptr_whitelist_serviced_query
  | rbtree_cmp => fptr_whitelist_rbtree_cmp
  | hash_sizefunc => fptr_whitelist_hash_sizefunc
  | hash_compfunc => fptr_whitelist_hash_compfunc
  | hash_delkeyfunc => fptr_whitelist_hash_delkeyfunc
  | hash_deldatafunc => fptr_whitelist_hash_deldatafunc
  | hash_markdelfunc => fptr_whitelist_hash_markdelfunc
  | modenv_send_query => fptr_whitelist_modenv_send_query
  | modenv_detach_subs => fptr_whitelist_modenv_detach_subs
  | modenv_attach_sub => fptr_whitelist_modenv_attach_sub
  | modenv_kill_sub => fptr_whitelist_modenv_kill_sub
  | modenv_detect_cycle => fptr_whitelist_modenv_detect_cycle
  | mod_init => fptr_whitelist_mod_init
  | mod_deinit => fptr_whitelist_mod_deinit
  | mod_operate => fptr_whitelist_mod_operate
  | mod_inform_super => fptr_whitelist_mod_inform_super
  | mod_clear => fptr_whitelist_mod_clear
  | mod_get_mem => fptr_whitelist_mod_get_mem
  | alloc_cleanup => fptr_whitelist_alloc_cleanup
  | tube_listen => fptr_whitelist_tube_listen
  | mesh_cb => fptr_whitelist_mesh_cb
  | print_func => fptr_whitelist_print_func
  end.

(** A pointer value is registered for a role when it is the address of
    one of the role's listed functions; the null pointer is the address
    of no function. *)
Definition registered (s : process) (c : category) (fptr : N) : Prop :=
  match fptr with
  | N0 => False
  | Npos f => f ∈ wlist s c
  end.

#[global] Instance registered_dec s c fptr : Decision (registered s c fptr).
Proof. destruct fptr; cbn [registered]; apply _. Defined.

(** ** Stored callbacks *)

(** A function pointer as a structure of the host holds it: the type the
    member is declared with and the address it holds at run time. *)
Record fptr_value : Set := mkFptr {
  ftype : ctype;
  faddr : N
}.

(** ** The header as the preprocessor reads it *)

Inductive macro : Type :=
| ObjectLike
| FunctionLike (expansion : nat -> call_site -> check_expr -> M unit).

Inductive cpp_line : Type :=
| PIfndef (name : string)
| PEndif
| PDefine (name : string) (def : macro)
| PInclude (path : string)
| PProto (name : string) (ty : ctype).

Definition include_guard : string := "UTIL_FPTR_WLIST_H".

Definition compare_fn : ctype := Tfun Tint (params_of [cvoid_p; cvoid_p]).

Definition header : list cpp_line :=
  [ PIfndef include_guard;
    PDefine include_guard ObjectLike;
    PInclude "util/netevent.h";
    PInclude "util/storage/lruhash.h";
    PInclude "util/module.h";
    PInclude "util/tube.h";
    PInclude "services/mesh.h";
    PDefine "fptr_ok" (FunctionLike fptr_ok) ]
  ++ map (fun c => PProto (checker_name c)
                     (Tfun Tint (params_of [param_type c])))
       all_categories
  ++ [ PProto "order_lock_cmp" compare_fn;
       PProto "codeline_cmp" compare_fn;
       PProto "replay_var_compare" compare_fn;
       PEndif ].

Section Preprocessor.

(** What reading an included file does to the macro table; the included
    headers are not shown, so this is left open. *)
Variable include_file : string -> gmap string macro -> gmap string macro.

(** [skipping] counts the conditional groups being skipped (0: lines
    are live). *)
Fixpoint preprocess (ls : list cpp_line) (skipping : nat)
    (env : gmap string macro) : gmap string macro :=
  match ls with
  | [] => env
  | l :: rest =>
      match skipping with
      | O =>
          match l with
          | PIfndef name =>
              match env !! name with
              | Some _ => preprocess rest 1%nat env
              | None => preprocess rest 0%nat env
              end
          | PEndif => preprocess rest 0%nat env
          | PDefine name def => preprocess rest 0%nat (<[name := def]> env)
          | PInclude path => preprocess rest 0%nat (include_file path env)
          | PProto _ _ => preprocess rest 0%nat env
          end
      | S k =>
          match l with
          | PIfndef _ => preprocess rest (S (S k)) env
          | PEndif => preprocess rest k env
          | _ => preprocess rest (S k) env
          end
      end
  end.

(** Expanding [name(x)] at [site] under a macro table. *)
Definition expand (env : gmap string macro) (name : string)
    (fuel : nat) (site : call_site) (x : check_expr) : option (M unit) :=
  match env !! name with
  | Some (FunctionLike expansion) => Some (expansion fuel site x)
  | _ => None
  end.

End Preprocessor.

(** ** Sample inputs

    A small process image and a few call sites, used to run the
    definitions on concrete data. *)

Definition sample_lists (c : category) : list positive :=
  match c with
  | comm_point => [4096; 4160]%positive
  | comm_point_raw => [4160; 8192]%positive
  | comm_timer => [12288]%positive
  | comm_signal => [16384]%positive
  | rbtree_cmp => [20480]%positive
  | mod_init => [24576; 24832]%positive
  | _ => [28672]%positive
  end.

Definition sample_process : process :=
  {| wlist := sample_lists; mem := ∅; logged := [] |}.

Definition sample_site : call_site :=
  {| site_file := "util/netevent.c"; site_line := 713;
     site_func := "comm_point_tcp_handle_callback" |}.

(** [fptr_whitelist_comm_point(c->callback)] with a null callback *)
Definition null_callback_check : check_expr :=
  {| text := "fptr_whitelist_comm_point(c->callback)";
     eval := fptr_whitelist_comm_point 0%N |}.

(** an expression that counts its evaluations in memory cell 0 and then
    yields the checker's answer for a listed timer callback *)
Definition counting_check : check_expr :=
  {| text := "(evaluations++, fptr_whitelist_comm_timer(t->callback))";
     eval := fun s =>
       fptr_whitelist_comm_timer 12288%N
         {| wlist := wlist s;
            mem := <[0%N := default 0 (mem s !! 0%N) + 1]> (mem s);
            logged := logged s |} |}.

(** an expression whose value is the int [-1] *)
Definition minus_one_check : check_expr :=
  {| text := "-1"; eval := mret (-1) |}.

(** what a caller does after the check: here, a store to memory cell 7 *)
Definition sample_call : M unit :=
  fun s => Returns tt
    {| wlist := wlist s; mem := <[7%N := 1]> (mem s); logged := logged s |}.

(** [sample_process] after one evaluation of [counting_check] *)
Definition counted_once : process :=
  {| wlist := sample_lists; mem := {[ 0%N := 1 ]}; logged := [] |}.

(** a callback stored with the type of [comm_point] callbacks *)
Definition comm_point_callback : fptr_value :=
  {| ftype := Tptr (Tnamed "comm_point_callback_t"); faddr := 4096 |}.

(** a callback stored with the type of timer callbacks *)
Definition timer_callback : fptr_value :=
  {| ftype := fnptr Tvoid [void_p]; faddr := 12288 |}.

(** the pairs of roles, in header order, whose checkers are declared
    with one and the same parameter type *)
Definition same_parameter_type : list (category * category) :=
  filter (fun cc => bool_decide (param_type cc.1 = param_type cc.2))
    (flat_map (fun i =>
       match drop i all_categories with
       | [] => []
       | c :: later => map (pair c) later
       end) (seq 0 (length all_categories))).

(** an included file that defines a macro of its own *)
Definition sample_include (path : string) (env : gmap string macro)
    : gmap string macro :=
  <[ (path +:+ " seen") := ObjectLike ]> env.

(** ** Consecutive checks

    [fptr_ok(x1); fptr_ok(x2); ...] as a caller writes it before a
    critical region: each use is the expansion of the macro followed by
    the empty statement that the caller's own semicolon leaves after the
    macro's. *)

(** [;] *)
Definition c_empty : M unit := mret tt.

Fixpoint fptr_ok_seq (fuel : nat) (uses : list (call_site * check_expr))
    : M unit :=
  match uses with
  | [] => mret tt
  | (site, x) :: rest =>
      fptr_ok fuel site x ;; c_empty ;; fptr_ok_seq fuel rest
  end.

(** The expressions of [uses], evaluated in order from [s], all yield a
    nonzero value and leave the process in [s']. *)
Inductive all_pass : list (call_site * check_expr) -> process -> process -> Prop :=
| all_pass_nil (s : process) : all_pass [] s s
| all_pass_cons (site : call_site) (x : check_expr)
    (rest : list (call_site * check_expr)) (s s1 s' : process) (v : Z) :
    run (eval x) s = Returns v s1 -> v <> 0 ->
    all_pass rest s1 s' ->
    all_pass ((site, x) :: rest) s s'.

(** ** Declarations of the header *)

(** The type a function is declared with in a sequence of lines, if it
    is declared there. *)
Fixpoint prototype (ls : list cpp_line) (name : string) : option ctype :=
  match ls with
  | [] => None
  | PProto n ty :: rest =>
      if decide (n = name) then Some ty else prototype rest name
  | _ :: rest => prototype rest name
  end.

(** The comparison functions of the test applications, declared at the
    end of the header. *)
Definition test_app_declarations : list string :=
  [ "order_lock_cmp"; "codeline_cmp"; "replay_var_compare" ].

(** More sample inputs. *)

Definition second_site : call_site :=
  {| site_file := "util/storage/lruhash.c"; site_line := 301;
     site_func := "lruhash_insert" |}.

(** an expression whose evaluation ends the process by itself *)
Definition exiting_check : check_expr :=
  {| text := "check_or_die(table)";
     eval := fatal_exit "out of memory" [] ;; mret 1 |}.

Definition sample_uses : list (call_site * check_expr) :=
  [ (second_site, counting_check);
    (sample_site, null_callback_check);
    (second_site, counting_check) ].


(** The roles whose checkers are declared with one and the same
    parameter type, group by group. *)
Definition shared_signature_groups : list (list category) :=
  [ [ comm_point; comm_point_raw; pending_udp; pending_tcp; serviced_query ];
    [ comm_timer; alloc_cleanup ];
    [ modenv_detach_subs; modenv_kill_sub ] ].

(** * Properties *)

(** ** Running computations *)

Lemma run_ret {A} (a : A) (s : process) : run (mret a) s = Returns a s.
Proof. reflexivity. Qed.

Lemma run_bind {A B} (m : M A) (k : A -> M B) (s : process) :
  run (m ≫= k) s =
  match run m s with
  | Returns a s' => run (k a) s'
  | Exits s' => Exits s'
  | OutOfFuel => OutOfFuel
  end.
Proof. reflexivity. Qed.

Lemma run_bind_returns {A B} (m : M A) (k : A -> M B) s a s' :
  run m s = Returns a s' -> run (m ≫= k) s = run (k a) s'.
Proof. intros H. rewrite run_bind, H. reflexivity. Qed.

Lemma run_bind_exits {A B} (m : M A) (k : A -> M B) s s' :
  run m s = Exits s' -> run (m ≫= k) s = Exits s'.
Proof. intros H. rewrite run_bind, H. reflexivity. Qed.

Lemma run_fatal_exit format args s :
  run (fatal_exit format args) s = Exits (log_line (vformat format args) s).
Proof. reflexivity. Qed.

(** ** The statements of the macro *)

Lemma run_c_lnot (e : M Z) s v s' :
  run e s = Returns v s' ->
  run (c_lnot e) s = Returns (if v =? 0 then 1 else 0) s'.
Proof. intros H. unfold c_lnot. rewrite (run_bind_returns _ _ _ _ _ H). reflexivity. Qed.

Lemma run_c_if_taken (e : M Z) (st : M unit) s v s' :
  run e s = Returns v s' -> v <> 0 -> run (c_if e st) s = run st s'.
Proof.
  intros H Hv. unfold c_if. rewrite (run_bind_returns _ _ _ _ _ H).
  destruct (Z.eqb_spec v 0); [contradiction | reflexivity].
Qed.

Lemma run_c_if_skipped (e : M Z) (st : M unit) s s' :
  run e s = Returns 0 s' -> run (c_if e st) s = Returns tt s'.
Proof. intros H. unfold c_if. rewrite (run_bind_returns _ _ _ _ _ H). reflexivity. Qed.

(** A loop whose condition is the constant [0] runs its body once, with
    any fuel that allows one round. *)
Lemma do_while_zero (n : nat) (st : M unit) s :
  run (do_while (S n) st (mret 0)) s = run st s.
Proof.
  cbn [do_while]. rewrite run_bind.
  destruct (run st s) as [[] s'| s' |]; reflexivity.
Qed.

(** The macro, flattened: one evaluation of the argument, then the branch. *)
Lemma fptr_ok_unfold (n : nat) (site : call_site) (x : check_expr) s :
  run (fptr_ok (S n) site x) s =
  match run (eval x) s with
  | Returns v s' =>
      if v =? 0
      then run (fatal_exit fptr_ok_format (fptr_ok_args site x)) s'
      else Returns tt s'
  | Exits s' => Exits s'
  | OutOfFuel => OutOfFuel
  end.
Proof.
  unfold fptr_ok. rewrite do_while_zero.
  destruct (run (eval x) s) as [v s'| s' |] eqn:E.
  - pose proof (run_c_lnot _ _ _ _ E) as Hn.
    destruct (Z.eqb_spec v 0) as [->|Hv].
    + rewrite (run_c_if_taken _ _ _ _ _ Hn); [reflexivity | discriminate].
    + apply run_c_if_skipped. exact Hn.
  - unfold c_if, c_lnot. rewrite !run_bind, E. reflexivity.
  - unfold c_if, c_lnot. rewrite !run_bind, E. reflexivity.
Qed.

(** The text of the diagnostic. *)
Lemma fptr_ok_message (site : call_site) (x : check_expr) :
  vformat fptr_ok_format (fptr_ok_args site x) =
  (site_file site ++ ":" ++ decimal (site_line site) ++ ": " ++
   site_func site ++ ": pointer whitelist " ++ text x ++ " failed")%string.
Proof. reflexivity. Qed.

Lemma append_assoc (a b c : string) :
  ((a ++ b) ++ c = a ++ b ++ c)%string.
Proof.
  induction a as [|ch a IH]; [reflexivity |].
  change (String ch ((a ++ b) ++ c) = String ch (a ++ b ++ c))%string.
  now rewrite IH.
Qed.

Lemma mentions_head (part after : string) : mentions (part ++ after) part.
Proof. exists EmptyString, after. reflexivity. Qed.

Lemma mentions_skip (a msg part : string) :
  mentions msg part -> mentions (a ++ msg) part.
Proof.
  intros (before & after & ->).
  exists (a ++ before)%string, after. symmetry. apply append_assoc.
Qed.

(** ** Claims about the macro *)

(** C1: when the check expression evaluates to zero, [fptr_ok] calls
    [fatal_exit] and the process ends there: control does not come back
    to the caller, so whatever follows the check (the call through the
    unverified pointer) is not run. *)
Theorem fptr_ok_false_never_returns
    (fuel : nat) (site : call_site) (x : check_expr) (s s' : process) :
  run (eval x) s = Returns 0 s' ->
  run (fptr_ok (S fuel) site x) s =
    run (fatal_exit fptr_ok_format (fptr_ok_args site x)) s' /\
  (forall (r : unit) (t : process),
      run (fptr_ok (S fuel) site x) s <> Returns r t) /\
  (forall (A : Type) (call : M A),
      run (fptr_ok (S fuel) site x ;; call) s =
      Exits (log_line (vformat fptr_ok_format (fptr_ok_args site x)) s')).
Proof.
  intros Hx.
  assert (Hrun : run (fptr_ok (S fuel) site x) s =
                 Exits (log_line (vformat fptr_ok_format (fptr_ok_args site x)) s')).
  { rewrite fptr_ok_unfold, Hx. reflexivity. }
  split; [| split].
  - rewrite Hrun. reflexivity.
  - intros r t. rewrite Hrun. discriminate.
  - intros A call. apply run_bind_exits. exact Hrun.
Qed.

Lemma fptr_ok_false_never_returns_witness :
  run (eval null_callback_check) sample_process = Returns 0 sample_process /\
  run (fptr_ok 1 sample_site null_callback_check ;; sample_call) sample_process =
  Exits
    {| wlist := sample_lists; mem := ∅;
       logged :=
         [ "util/netevent.c:713: comm_point_tcp_handle_callback: pointer whitelist fptr_whitelist_comm_point(c->callback) failed" ] |}.
Proof.
  split; [reflexivity |].
  apply (fptr_ok_false_never_returns 0 sample_site null_callback_check
           sample_process sample_process); reflexivity.
Defined.

(** C4: the diagnostic emitted on a failed check is
    [file:line: function: pointer whitelist <expression> failed]; it
    names the file and line of the check, the enclosing function and the
    text of the failing expression, and it is in the log of the state in
    which the process ends. *)
Theorem fptr_ok_diagnostic
    (fuel : nat) (site : call_site) (x : check_expr) (s s' : process) :
  run (eval x) s = Returns 0 s' ->
  exists msg : string,
    run (fptr_ok (S fuel) site x) s = Exits (log_line msg s') /\
    msg = (site_file site ++ ":" ++ decimal (site_line site) ++ ": " ++
           site_func site ++ ": pointer whitelist " ++ text x ++ " failed")%string /\
    mentions msg (site_file site) /\
    mentions msg (decimal (site_line site)) /\
    mentions msg (site_func site) /\
    mentions msg (text x).
Proof.
  intros Hx.
  exists (vformat fptr_ok_format (fptr_ok_args site x)).
  split; [rewrite fptr_ok_unfold, Hx; reflexivity |].
  rewrite fptr_ok_message. split; [reflexivity |].
  repeat split.
  - apply mentions_head.
  - do 2 apply mentions_skip. apply mentions_head.
  - do 4 apply mentions_skip. apply mentions_head.
  - do 6 apply mentions_skip. apply mentions_head.
Qed.

Lemma fptr_ok_diagnostic_witness :
  run (eval null_callback_check) sample_process = Returns 0 sample_process /\
  exists msg : string,
    run (fptr_ok 1 sample_site null_callback_check) sample_process =
      Exits (log_line msg sample_process) /\
    msg = "util/netevent.c:713: comm_point_tcp_handle_callback: pointer whitelist fptr_whitelist_comm_point(c->callback) failed"%string /\
    mentions msg "util/netevent.c" /\
    mentions msg "713" /\
    mentions msg "comm_point_tcp_handle_callback" /\
    mentions msg "fptr_whitelist_comm_point(c->callback)".
Proof.
  split; [reflexivity |].
  apply (fptr_ok_diagnostic 0 sample_site null_callback_check
           sample_process sample_process); reflexivity.
Defined.

(** C9: [fptr_ok] evaluates its argument once: running the macro is
    running the argument a single time and then branching on the value
    obtained.  When that value is nonzero nothing else happens: control
    returns in exactly the state the evaluation left, with no diagnostic
    and no termination. *)
Theorem fptr_ok_evaluates_once
    (fuel : nat) (site : call_site) (x : check_expr) (s : process) :
  run (fptr_ok (S fuel) site x) s =
    run (v ← eval x;
         if v =? 0 then fatal_exit fptr_ok_format (fptr_ok_args site x)
         else mret tt) s /\
  (forall (v : Z) (s' : process),
      run (eval x) s = Returns v s' -> v <> 0 ->
      run (fptr_ok (S fuel) site x) s = Returns tt s').
Proof.
  split.
  - rewrite fptr_ok_unfold, run_bind.
    destruct (run (eval x) s) as [v s'| s' |]; [| reflexivity ..].
    destruct (v =? 0); reflexivity.
  - intros v s' Hx Hv. rewrite fptr_ok_unfold, Hx.
    destruct (Z.eqb_spec v 0); [contradiction | reflexivity].
Qed.

Lemma fptr_ok_evaluates_once_witness :
  run (eval counting_check) sample_process = Returns 1 counted_once /\
  1 <> 0 /\
  run (fptr_ok 1 sample_site counting_check) sample_process =
    Returns tt counted_once.
Proof.
  split; [reflexivity |]. split; [lia |].
  apply (proj2 (fptr_ok_evaluates_once 0 sample_site counting_check
                  sample_process) 1 counted_once); [reflexivity | lia].
Defined.

(** C10: the guard of [fptr_ok] is the C truth test: any nonzero value
    of the argument, whatever its sign or size, lets control through,
    and the value zero alone leads to the call of [fatal_exit]. *)
Theorem fptr_ok_guard_is_nonzero_test
    (fuel : nat) (site : call_site) (x : check_expr)
    (s : process) (v : Z) (s' : process) :
  run (eval x) s = Returns v s' ->
  (v <> 0 -> run (fptr_ok (S fuel) site x) s = Returns tt s') /\
  (v = 0 ->
   run (fptr_ok (S fuel) site x) s =
   run (fatal_exit fptr_ok_format (fptr_ok_args site x)) s').
Proof.
  intros Hx. rewrite fptr_ok_unfold, Hx.
  destruct (Z.eqb_spec v 0) as [Hz|Hnz]; split; intros H;
    solve [reflexivity | contradiction].
Qed.

Lemma fptr_ok_guard_is_nonzero_test_witness :
  run (eval minus_one_check) sample_process = Returns (-1) sample_process /\
  (-1 <> 0 ->
   run (fptr_ok 1 sample_site minus_one_check) sample_process =
   Returns tt sample_process) /\
  (-1 = 0 ->
   run (fptr_ok 1 sample_site minus_one_check) sample_process =
   run (fatal_exit fptr_ok_format (fptr_ok_args sample_site minus_one_check))
     sample_process).
Proof.
  split; [reflexivity |].
  apply (fptr_ok_guard_is_nonzero_test 0 sample_site minus_one_check
           sample_process (-1) sample_process); reflexivity.
Defined.

(** ** The checkers *)

Lemma whitelist_scan_hit (entries : list positive) (f : positive) :
  f ∈ entries -> whitelist_scan entries (Npos f) = 1.
Proof.
  induction entries as [|g rest IH]; intros Hin.
  - apply elem_of_nil in Hin. contradiction.
  - cbn [whitelist_scan]. destruct (N.eqb_spec (Npos f) (Npos g)) as [_|Hne];
      [reflexivity |].
    apply elem_of_cons in Hin as [->|Hin]; [contradiction | auto].
Qed.

Lemma whitelist_scan_miss (entries : list positive) (fptr : N) :
  (forall f, f ∈ entries -> fptr <> Npos f) ->
  whitelist_scan entries fptr = 0.
Proof.
  induction entries as [|g rest IH]; intros Hmiss; [reflexivity |].
  cbn [whitelist_scan]. destruct (N.eqb_spec fptr (Npos g)) as [Heq|_].
  - exfalso. apply (Hmiss g); [apply elem_of_cons; now left | exact Heq].
  - apply IH. intros f Hf. apply Hmiss, elem_of_cons. now right.
Qed.

Lemma run_checker (c : category) (fptr : N) (s : process) :
  run (checker c fptr) s = Returns (whitelist_scan (wlist s c) fptr) s.
Proof. destruct c; reflexivity. Qed.

Lemma unregistered_miss (s : process) (c : category) (fptr : N) :
  ~ registered s c fptr -> whitelist_scan (wlist s c) fptr = 0.
Proof.
  intros Hn. apply whitelist_scan_miss. intros f Hf ->. apply Hn. exact Hf.
Qed.

(** C2: for every role and every function address on the role's list,
    the role's checker returns a nonzero value (true) for that address,
    and leaves the process as it was. *)
Theorem checker_accepts_registered
    (c : category) (fptr : N) (s : process) :
  registered s c fptr ->
  exists v : Z, v <> 0 /\ run (checker c fptr) s = Returns v s.
Proof.
  intros Hreg. exists 1. split; [discriminate |].
  rewrite run_checker. destruct fptr as [|f]; [contradiction |].
  now rewrite (whitelist_scan_hit _ _ Hreg).
Qed.

Lemma checker_accepts_registered_witness :
  registered sample_process mod_init 24832 /\
  exists v : Z, v <> 0 /\
    run (fptr_whitelist_mod_init 24832) sample_process = Returns v sample_process.
Proof.
  assert (H : registered sample_process mod_init 24832)
    by (apply (bool_decide_unpack _); vm_compute; exact I).
  split; [exact H |].
  apply (checker_accepts_registered mod_init 24832 sample_process H).
Defined.

(** C3: for every role, the checker returns zero (false) for every
    pointer value that is not on the role's list; the null pointer is
    such a value, and so is an address listed for another role only. *)
Theorem checker_rejects_unregistered (c : category) (s : process) :
  (forall fptr : N,
      ~ registered s c fptr -> run (checker c fptr) s = Returns 0 s) /\
  run (checker c 0%N) s = Returns 0 s /\
  (forall (c' : category) (fptr : N),
      registered s c' fptr -> ~ registered s c fptr ->
      run (checker c fptr) s = Returns 0 s).
Proof.
  assert (Hmiss : forall fptr, ~ registered s c fptr ->
                               run (checker c fptr) s = Returns 0 s).
  { intros fptr Hn. rewrite run_checker. now rewrite unregistered_miss. }
  split; [exact Hmiss |]. split.
  - apply Hmiss. intros [].
  - intros c' fptr _ Hn. apply Hmiss, Hn.
Qed.

Lemma checker_rejects_unregistered_witness :
  registered sample_process comm_timer 12288 /\
  ~ registered sample_process comm_signal 12288 /\
  run (fptr_whitelist_comm_signal 12288) sample_process =
    Returns 0 sample_process.
Proof.
  assert (H1 : registered sample_process comm_timer 12288)
    by (apply (bool_decide_unpack _); vm_compute; exact I).
  assert (H2 : ~ registered sample_process comm_signal 12288)
    by (apply (bool_decide_unpack _); vm_compute; exact I).
  split; [exact H1 |]. split; [exact H2 |].
  apply (proj2 (proj2 (checker_rejects_unregistered comm_signal sample_process))
           comm_timer 12288%N H1 H2).
Defined.

(** ** Parameter types and isolation between roles *)

(** The pairs of checkers that share a parameter type, as the header
    declares them: the five [comm_point_callback_t*] checkers among
    themselves, the timer and the alloc-cleanup checkers, and the
    detach-subs and kill-sub checkers. *)
Lemma same_parameter_type_pairs :
  same_parameter_type =
  [ (comm_point, comm_point_raw); (comm_point, pending_udp);
    (comm_point, pending_tcp); (comm_point, serviced_query);
    (comm_point_raw, pending_udp); (comm_point_raw, pending_tcp);
    (comm_point_raw, serviced_query);
    (comm_timer, alloc_cleanup);
    (pending_udp, pending_tcp); (pending_udp, serviced_query);
    (pending_tcp, serviced_query);
    (modenv_detach_subs, modenv_kill_sub) ].
Proof. vm_compute. reflexivity. Qed.

(** The roles of one group are declared with one parameter type. *)
Lemma group_members_share_type (g : list category) (c c' : category) :
  g ∈ shared_signature_groups -> c ∈ g -> c' ∈ g ->
  param_type c = param_type c'.
Proof.
  unfold shared_signature_groups. intros Hg Hc Hc'.
  repeat (apply elem_of_cons in Hg as [-> | Hg]);
    [| | | apply elem_of_nil in Hg; contradiction];
    repeat (apply elem_of_cons in Hc as [-> | Hc]);
    try (apply elem_of_nil in Hc; contradiction);
    repeat (apply elem_of_cons in Hc' as [-> | Hc']);
    try (apply elem_of_nil in Hc'; contradiction);
    reflexivity.
Qed.

(** A checker's answer is decided by its own list. *)
Lemma checker_answer (c : category) (fptr : N) (s : process) :
  exists v : Z,
    run (checker c fptr) s = Returns v s /\
    (v <> 0 <-> registered s c fptr).
Proof.
  rewrite run_checker.
  destruct (decide (registered s c fptr)) as [Hreg | Hnot].
  - exists 1. destruct fptr as [|f]; [contradiction |].
    rewrite (whitelist_scan_hit _ _ Hreg).
    split; [reflexivity | split; [intros _; exact Hreg | discriminate]].
  - exists 0. rewrite (unregistered_miss _ _ _ Hnot).
    split; [reflexivity | split; [intros H; now contradict H | contradiction]].
Qed.

(** C7, as stated, fails: the checkers do not each have a parameter type
    of their own.  A timer callback (a pointer to a function from a void
    pointer to void) has exactly the parameter type of the alloc-cleanup
    checker, a different role; likewise a [comm_point_callback_t*] has
    exactly the parameter type of the checker for raw comm points.  No
    conversion is involved in passing either to the other role's
    checker. *)
Lemma wrong_checker_takes_pointer :
  comm_timer <> alloc_cleanup /\
  ftype timer_callback = param_type comm_timer /\
  ftype timer_callback = param_type alloc_cleanup /\
  comm_point <> comm_point_raw /\
  ftype comm_point_callback = param_type comm_point /\
  ftype comm_point_callback = param_type comm_point_raw.
Proof. repeat split; discriminate. Qed.

(** C7, amended: a checker consults its own list only: it answers
    nonzero exactly for the addresses registered for its own role,
    whatever the other lists hold.  The parameter types do not keep the
    roles of a group apart: a callback stored with the type of one role
    of a group has exactly the parameter type of the checker of every
    role of that group, and such a checker turns it down whenever it is
    registered for the other role but not for the checker's own. *)
Theorem checker_isolation (c : category) (s : process) :
  (forall fptr : N,
      exists v : Z,
        run (checker c fptr) s = Returns v s /\
        (v <> 0 <-> registered s c fptr)) /\
  (forall (g : list category) (c' : category) (p : fptr_value),
      g ∈ shared_signature_groups -> c ∈ g -> c' ∈ g ->
      ftype p = param_type c' ->
      ftype p = param_type c /\
      (registered s c' (faddr p) -> ~ registered s c (faddr p) ->
       run (checker c (faddr p)) s = Returns 0 s)).
Proof.
  split.
  - intros fptr. apply checker_answer.
  - intros g c' p Hg Hc Hc' Hp. split.
    + rewrite Hp. apply (group_members_share_type g); assumption.
    + intros _ Hnot. rewrite run_checker.
      now rewrite (unregistered_miss _ _ _ Hnot).
Qed.

Lemma checker_isolation_witness :
  [ comm_point; comm_point_raw; pending_udp; pending_tcp; serviced_query ]
    ∈ shared_signature_groups /\
  ftype comm_point_callback = param_type comm_point /\
  registered sample_process comm_point (faddr comm_point_callback) /\
  ~ registered sample_process comm_point_raw (faddr comm_point_callback) /\
  ftype comm_point_callback = param_type comm_point_raw /\
  run (fptr_whitelist_comm_point_raw (faddr comm_point_callback))
    sample_process = Returns 0 sample_process.
Proof.
  assert (Hg : [ comm_point; comm_point_raw; pending_udp; pending_tcp;
                 serviced_query ] ∈ shared_signature_groups)
    by (apply (bool_decide_unpack _); vm_compute; exact I).
  assert (Hc : comm_point_raw ∈ [ comm_point; comm_point_raw; pending_udp;
                                  pending_tcp; serviced_query ])
    by (apply (bool_decide_unpack _); vm_compute; exact I).
  assert (Hc' : comm_point ∈ [ comm_point; comm_point_raw; pending_udp;
                               pending_tcp; serviced_query ])
    by (apply (bool_decide_unpack _); vm_compute; exact I).
  assert (H1 : registered sample_process comm_point
                 (faddr comm_point_callback))
    by (apply (bool_decide_unpack _); vm_compute; exact I).
  assert (H2 : ~ registered sample_process comm_point_raw
                   (faddr comm_point_callback))
    by (apply (bool_decide_unpack _); vm_compute; exact I).
  destruct (proj2 (checker_isolation comm_point_raw sample_process)
              _ comm_point comm_point_callback Hg Hc Hc' eq_refl)
    as [Hty Hrej].
  split; [exact Hg |]. split; [reflexivity |]. split; [exact H1 |].
  split; [exact H2 |]. split; [exact Hty |]. exact (Hrej H1 H2).
Defined.

(** ** The macro under build flags *)

Section HeaderMacros.

Variable include_file : string -> gmap string macro -> gmap string macro.

(** Reading the header for the first time: everything between the
    include guard and its [#endif] is live, whatever else is defined. *)
Lemma preprocess_header (env : gmap string macro) :
  env !! include_guard = None ->
  preprocess include_file header 0 env =
  <["fptr_ok" := FunctionLike fptr_ok]>
    (include_file "services/mesh.h"
      (include_file "util/tube.h"
        (include_file "util/module.h"
          (include_file "util/storage/lruhash.h"
            (include_file "util/netevent.h"
              (<[include_guard := ObjectLike]> env)))))).
Proof.
  intros H. unfold header.
  cbn [app map all_categories preprocess]. rewrite H. reflexivity.
Qed.

Lemma header_defines_fptr_ok (env : gmap string macro) :
  env !! include_guard = None ->
  preprocess include_file header 0 env !! "fptr_ok" =
  Some (FunctionLike fptr_ok).
Proof. intros H. rewrite (preprocess_header _ H). apply lookup_insert_eq. Qed.

End HeaderMacros.

(** C5: [fptr_ok] is defined by the header outside any conditional group
    other than the include guard, so a build flag such as [NDEBUG] does
    not change it: with the flag defined or not, a first inclusion of the
    header yields the same macro, and its expansion on an argument that
    evaluates to zero calls [fatal_exit]. *)
Theorem fptr_ok_active_under_any_flag
    (include_file : string -> gmap string macro -> gmap string macro)
    (env : gmap string macro) (flag : string)
    (fuel : nat) (site : call_site) (x : check_expr) (s s' : process) :
  flag <> include_guard ->
  env !! include_guard = None ->
  run (eval x) s = Returns 0 s' ->
  let flag_on :=
    preprocess include_file header 0 (<[flag := ObjectLike]> env) in
  let flag_off := preprocess include_file header 0 (delete flag env) in
  flag_on !! "fptr_ok" = Some (FunctionLike fptr_ok) /\
  flag_off !! "fptr_ok" = Some (FunctionLike fptr_ok) /\
  exists m : M unit,
    expand flag_on "fptr_ok" (S fuel) site x = Some m /\
    expand flag_off "fptr_ok" (S fuel) site x = Some m /\
    run m s = run (fatal_exit fptr_ok_format (fptr_ok_args site x)) s'.
Proof.
  intros Hflag Hguard Hx flag_on flag_off.
  assert (Hon : flag_on !! "fptr_ok" = Some (FunctionLike fptr_ok)).
  { apply header_defines_fptr_ok. now rewrite lookup_insert_ne. }
  assert (Hoff : flag_off !! "fptr_ok" = Some (FunctionLike fptr_ok)).
  { apply header_defines_fptr_ok. now rewrite lookup_delete_ne. }
  split; [exact Hon |]. split; [exact Hoff |].
  exists (fptr_ok (S fuel) site x). unfold expand. rewrite Hon, Hoff.
  split; [reflexivity |]. split; [reflexivity |].
  rewrite fptr_ok_unfold, Hx. reflexivity.
Qed.

Lemma fptr_ok_active_under_any_flag_witness :
  "NDEBUG" <> include_guard /\
  (∅ : gmap string macro) !! include_guard = None /\
  run (eval null_callback_check) sample_process = Returns 0 sample_process /\
  exists m : M unit,
    expand (preprocess sample_include header 0 {[ "NDEBUG" := ObjectLike ]})
      "fptr_ok" 1 sample_site null_callback_check = Some m /\
    expand (preprocess sample_include header 0 ∅)
      "fptr_ok" 1 sample_site null_callback_check = Some m /\
    run m sample_process =
    run (fatal_exit fptr_ok_format
           (fptr_ok_args sample_site null_callback_check)) sample_process.
Proof.
  assert (H1 : "NDEBUG" <> include_guard) by discriminate.
  assert (H2 : (∅ : gmap string macro) !! include_guard = None) by reflexivity.
  split; [exact H1 |]. split; [exact H2 |]. split; [reflexivity |].
  exact (proj2 (proj2 (fptr_ok_active_under_any_flag sample_include ∅ "NDEBUG"
                  0 sample_site null_callback_check sample_process
                  sample_process H1 H2 eq_refl))).
Defined.

(** * Further properties of the header *)

(** ** The include guard *)

(** X1: when the include guard is already defined, reading the header
    changes nothing: no macro is defined or redefined and the included
    files are not read. *)
Theorem guarded_header_is_skipped
    (include_file : string -> gmap string macro -> gmap string macro)
    (env : gmap string macro) (d : macro) :
  env !! include_guard = Some d ->
  preprocess include_file header 0 env = env.
Proof.
  intros H. unfold header.
  cbn [app map all_categories preprocess]. rewrite H. reflexivity.
Qed.

Lemma guarded_header_is_skipped_witness :
  ({[ include_guard := ObjectLike ]} : gmap string macro) !! include_guard
    = Some ObjectLike /\
  preprocess sample_include header 0 {[ include_guard := ObjectLike ]}
    = {[ include_guard := ObjectLike ]}.
Proof.
  assert (H : ({[ include_guard := ObjectLike ]} : gmap string macro)
                !! include_guard = Some ObjectLike) by reflexivity.
  split; [exact H |].
  apply (guarded_header_is_skipped sample_include _ ObjectLike H).
Defined.

Lemma includes_keep_guard
    (include_file : string -> gmap string macro -> gmap string macro)
    (env : gmap string macro) :
  (forall path e, is_Some (e !! include_guard) ->
                  is_Some (include_file path e !! include_guard)) ->
  env !! include_guard = None ->
  is_Some (preprocess include_file header 0 env !! include_guard).
Proof.
  intros Hkeep Hnone. rewrite (preprocess_header _ _ Hnone).
  rewrite lookup_insert_ne by discriminate.
  do 5 apply Hkeep. rewrite lookup_insert_eq. eauto.
Qed.

(** X2: including the header twice is the same as including it once,
    provided the files it includes do not undefine its guard. *)
Theorem header_inclusion_idempotent
    (include_file : string -> gmap string macro -> gmap string macro)
    (env : gmap string macro) :
  (forall path e, is_Some (e !! include_guard) ->
                  is_Some (include_file path e !! include_guard)) ->
  preprocess include_file header 0 (preprocess include_file header 0 env) =
  preprocess include_file header 0 env.
Proof.
  intros Hkeep.
  destruct (env !! include_guard) as [d|] eqn:E.
  - (* already included: both readings are skipped *)
    unfold header. cbn [app map all_categories preprocess].
    rewrite E. cbn [preprocess]. rewrite E. reflexivity.
  - destruct (includes_keep_guard _ _ Hkeep E) as [d Hd].
    generalize dependent (preprocess include_file header 0 env).
    intros env' Hd. unfold header.
    cbn [app map all_categories preprocess]. rewrite Hd. reflexivity.
Qed.

Lemma sample_include_keeps_guard (path : string) (e : gmap string macro) :
  is_Some (e !! include_guard) ->
  is_Some (sample_include path e !! include_guard).
Proof.
  intros H. unfold sample_include. apply lookup_insert_is_Some.
  destruct (decide (path +:+ " seen" = include_guard)); [left | right]; auto.
Qed.

Lemma header_inclusion_idempotent_witness :
  (forall path e, is_Some (e !! include_guard) ->
                  is_Some (sample_include path e !! include_guard)) /\
  preprocess sample_include header 0 (preprocess sample_include header 0 ∅) =
  preprocess sample_include header 0 ∅.
Proof.
  split; [exact sample_include_keeps_guard |].
  apply (header_inclusion_idempotent sample_include ∅
           sample_include_keeps_guard).
Defined.



(** ** The macro's loop and non-returning arguments *)

(** X4: the loop of [fptr_ok] never goes round again: with any two
    amounts of fuel that allow one round the macro does the same, and it
    adds no outcome of its own when its argument does not return: if
    evaluating the argument ends the process, the macro ends in that
    very state, without a diagnostic of its own, and it runs out of fuel
    only where the argument does. *)
Theorem fptr_ok_loop_runs_once
    (n m : nat) (site : call_site) (x : check_expr) (s : process) :
  run (fptr_ok (S n) site x) s = run (fptr_ok (S m) site x) s /\
  (forall t : process,
      run (eval x) s = Exits t -> run (fptr_ok (S n) site x) s = Exits t) /\
  (run (eval x) s = OutOfFuel -> run (fptr_ok (S n) site x) s = OutOfFuel) /\
  (forall (v : Z) (t : process),
      run (eval x) s = Returns v t ->
      run (fptr_ok (S n) site x) s <> OutOfFuel).
Proof.
  rewrite !fptr_ok_unfold. split; [reflexivity |].
  split; [| split].
  - intros t ->. reflexivity.
  - intros ->. reflexivity.
  - intros v t ->. destruct (v =? 0); discriminate.
Qed.

Lemma fptr_ok_loop_runs_once_witness :
  run (eval exiting_check) sample_process =
    Exits (log_line "out of memory" sample_process) /\
  run (fptr_ok 1 second_site exiting_check) sample_process =
    Exits (log_line "out of memory" sample_process).
Proof.
  split; [reflexivity |].
  apply (proj1 (proj2 (fptr_ok_loop_runs_once 0 0 second_site exiting_check
                         sample_process))).
  reflexivity.
Defined.

(** ** Consecutive checks *)

Lemma run_fptr_ok_seq_cons
    (n : nat) (site : call_site) (x : check_expr)
    (rest : list (call_site * check_expr)) (s s1 : process) (v : Z) :
  run (eval x) s = Returns v s1 -> v <> 0 ->
  run (fptr_ok_seq (S n) ((site, x) :: rest)) s =
  run (fptr_ok_seq (S n) rest) s1.
Proof.
  intros Hx Hv. cbn [fptr_ok_seq].
  assert (H : run (fptr_ok (S n) site x) s = Returns tt s1).
  { rewrite fptr_ok_unfold, Hx.
    destruct (Z.eqb_spec v 0); [contradiction | reflexivity]. }
  rewrite (run_bind_returns _ _ _ _ _ H). reflexivity.
Qed.

(** X5: a run of consecutive checks whose expressions all yield nonzero
    values returns, in the state the evaluations leave one after the
    other: the checks add nothing of their own. *)
Theorem fptr_ok_seq_all_pass
    (n : nat) (uses : list (call_site * check_expr)) (s s' : process) :
  all_pass uses s s' ->
  run (fptr_ok_seq (S n) uses) s = Returns tt s'.
Proof.
  induction 1 as [s | site x rest s s1 s' v Hx Hv _ IH].
  - reflexivity.
  - rewrite (run_fptr_ok_seq_cons _ _ _ _ _ _ _ Hx Hv). exact IH.
Qed.

Lemma fptr_ok_seq_all_pass_witness :
  all_pass [ (second_site, counting_check); (sample_site, minus_one_check) ]
    sample_process counted_once /\
  run (fptr_ok_seq 1
         [ (second_site, counting_check); (sample_site, minus_one_check) ])
    sample_process = Returns tt counted_once.
Proof.
  assert (H : all_pass
                [ (second_site, counting_check); (sample_site, minus_one_check) ]
                sample_process counted_once).
  { apply (all_pass_cons _ _ _ _ counted_once _ 1); [reflexivity | lia |].
    apply (all_pass_cons _ _ _ _ counted_once _ (-1)); [reflexivity | lia |].
    apply all_pass_nil. }
  split; [exact H |].
  apply (fptr_ok_seq_all_pass 0 _ _ _ H).
Defined.

(** X6: in a run of consecutive checks, the first expression that yields
    zero decides: the process ends with the call of [fatal_exit] for
    that check, in the state left by the evaluations up to it, and no
    later expression is evaluated, whatever the later checks are. *)
Theorem fptr_ok_seq_first_failure
    (n : nat) (passed later : list (call_site * check_expr))
    (site : call_site) (x : check_expr) (s s1 s2 : process) :
  all_pass passed s s1 ->
  run (eval x) s1 = Returns 0 s2 ->
  run (fptr_ok_seq (S n) (passed ++ (site, x) :: later)) s =
  run (fatal_exit fptr_ok_format (fptr_ok_args site x)) s2.
Proof.
  intros Hpass Hx.
  induction Hpass as [s | site0 x0 rest s s0 s' v Hx0 Hv _ IH].
  - cbn [app fptr_ok_seq].
    assert (H : run (fptr_ok (S n) site x) s =
                run (fatal_exit fptr_ok_format (fptr_ok_args site x)) s2).
    { rewrite fptr_ok_unfold, Hx. reflexivity. }
    rewrite run_bind, H. reflexivity.
  - cbn [app]. rewrite (run_fptr_ok_seq_cons _ _ _ _ _ _ _ Hx0 Hv).
    apply IH, Hx.
Qed.

Lemma fptr_ok_seq_first_failure_witness :
  all_pass [ (second_site, counting_check) ] sample_process counted_once /\
  run (eval null_callback_check) counted_once = Returns 0 counted_once /\
  run (fptr_ok_seq 1 sample_uses) sample_process =
  Exits
    {| wlist := sample_lists; mem := {[ 0%N := 1 ]};
       logged :=
         [ "util/netevent.c:713: comm_point_tcp_handle_callback: pointer whitelist fptr_whitelist_comm_point(c->callback) failed" ] |}.
Proof.
  assert (H : all_pass [ (second_site, counting_check) ]
                sample_process counted_once).
  { apply (all_pass_cons _ _ _ _ counted_once _ 1); [reflexivity | lia |].
    apply all_pass_nil. }
  split; [exact H |]. split; [reflexivity |].
  apply (fptr_ok_seq_first_failure 0 [ (second_site, counting_check) ]
           [ (second_site, counting_check) ] sample_site null_callback_check
           sample_process counted_once counted_once H).
  reflexivity.
Defined.

(** ** What the diagnostic tells apart *)

Lemma length_append (a b : string) :
  String.length (a ++ b) = (String.length a + String.length b)%nat.
Proof.
  induction a as [|ch a IH]; [reflexivity |].
  change (S (String.length (a ++ b)) = S (String.length a + String.length b)).
  now rewrite IH.
Qed.

Lemma append_cancel_l (a b c : string) :
  (a ++ b = a ++ c)%string -> b = c.
Proof.
  induction a as [|ch a IH]; intros H; [exact H |].
  apply IH. now injection H.
Qed.

Lemma append_cancel_r (a b c : string) :
  (a ++ c = b ++ c)%string -> a = b.
Proof.
  revert b. induction a as [|ch a IH]; intros [|ch' b] H.
  - reflexivity.
  - apply (f_equal String.length) in H.
    rewrite !length_append in H. cbn in H. lia.
  - apply (f_equal String.length) in H.
    rewrite !length_append in H. cbn in H. lia.
  - injection H as -> H. now rewrite (IH b H).
Qed.

Lemma decimal_inj (n m : Z) : decimal n = decimal m -> n = m.
Proof.
  unfold decimal. intros H.
  assert (Hn : forall z, NilZero.int_of_string
                           (NilZero.string_of_int (Z.to_int z))
                         = Some (Z.to_int z)).
  { intros z. apply NilZero.isi; destruct z; cbn; intros [= E];
      try discriminate; now apply DecimalPos.Unsigned.to_uint_nonnil in E. }
  apply DecimalZ.to_int_inj.
  pose proof (Hn n) as H1. rewrite H, Hn in H1. congruence.
Qed.

(** X7: the diagnostic tells apart two failed checks that differ in one
    of its parts only: if two checks produce the same message and agree
    on three of file, line, function and expression text, they agree on
    the fourth as well. *)
Theorem fptr_ok_diagnostic_identifies
    (site1 site2 : call_site) (x1 x2 : check_expr) :
  vformat fptr_ok_format (fptr_ok_args site1 x1) =
  vformat fptr_ok_format (fptr_ok_args site2 x2) ->
  (site_line site1 = site_line site2 -> site_func site1 = site_func site2 ->
   text x1 = text x2 -> site_file site1 = site_file site2) /\
  (site_file site1 = site_file site2 -> site_func site1 = site_func site2 ->
   text x1 = text x2 -> site_line site1 = site_line site2) /\
  (site_file site1 = site_file site2 -> site_line site1 = site_line site2 ->
   text x1 = text x2 -> site_func site1 = site_func site2) /\
  (site_file site1 = site_file site2 -> site_line site1 = site_line site2 ->
   site_func site1 = site_func site2 -> text x1 = text x2).
Proof.
  rewrite !fptr_ok_message. intros H. repeat split.
  - intros Hl Hf Ht. rewrite Hl, Hf, Ht in H.
    exact (append_cancel_r _ _ _ H).
  - intros Hfile Hf Ht. rewrite Hfile, Hf, Ht in H.
    apply append_cancel_l, (append_cancel_l ":") in H.
    apply decimal_inj. exact (append_cancel_r _ _ _ H).
  - intros Hfile Hl Ht. rewrite Hfile, Hl, Ht in H.
    do 2 apply append_cancel_l in H.
    apply append_cancel_l, (append_cancel_l ": ") in H.
    exact (append_cancel_r _ _ _ H).
  - intros Hfile Hl Hf. rewrite Hfile, Hl, Hf in H.
    do 4 apply append_cancel_l in H.
    do 2 apply append_cancel_l in H.
    exact (append_cancel_r _ _ _ H).
Qed.

Lemma fptr_ok_diagnostic_identifies_witness :
  vformat fptr_ok_format (fptr_ok_args sample_site null_callback_check) =
  vformat fptr_ok_format (fptr_ok_args sample_site null_callback_check) /\
  (site_file sample_site = site_file sample_site ->
   site_func sample_site = site_func sample_site ->
   text null_callback_check = text null_callback_check ->
   site_line sample_site = site_line sample_site).
Proof.
  split; [reflexivity |].
  apply (proj1 (proj2 (fptr_ok_diagnostic_identifies sample_site sample_site
                         null_callback_check null_callback_check eq_refl))).
Defined.

(** ** Declared parameter types, role by role *)

(** X8: two checkers are declared with the same parameter type exactly
    when they are the same checker or belong to one of three groups: the
    five [comm_point_callback_t*] checkers, the timer and alloc-cleanup
    checkers, the detach-subs and kill-sub checkers.  Every other pair of
    roles is kept apart by the declared types. *)
Theorem parameter_types_by_group (c c' : category) :
  param_type c = param_type c' <->
  c = c' \/ Exists (fun g => c ∈ g /\ c' ∈ g) shared_signature_groups.
Proof.
  assert (H : bool_decide (param_type c = param_type c') =
              bool_decide (c = c' \/
                Exists (fun g => c ∈ g /\ c' ∈ g) shared_signature_groups)).
  { destruct c, c'; vm_compute; reflexivity. }
  split; intros H0.
  - apply (bool_decide_unpack _). rewrite <- H. now apply bool_decide_pack.
  - apply (bool_decide_unpack _). rewrite H. now apply bool_decide_pack.
Qed.

(** X9: each comparison function that the header declares for the test
    applications has, once its address is taken, the parameter type of
    the rbtree comparison checker, and of that checker only. *)
Theorem test_comparators_fit_rbtree_cmp (name : string) :
  name ∈ test_app_declarations ->
  exists ty : ctype,
    prototype header name = Some ty /\
    forall c : category, Tptr ty = param_type c <-> c = rbtree_cmp.
Proof.
  intros Hin. exists compare_fn.
  assert (Hty : forall c, Tptr compare_fn = param_type c <-> c = rbtree_cmp).
  { intros c. split; [| intros ->; reflexivity].
    destruct c; intros H; solve [reflexivity | discriminate H]. }
  unfold test_app_declarations in Hin.
  repeat (apply elem_of_cons in Hin as [-> | Hin];
          [split; [vm_compute; reflexivity | exact Hty] |]).
  apply elem_of_nil in Hin. contradiction.
Qed.

Lemma test_comparators_fit_rbtree_cmp_witness :
  "codeline_cmp" ∈ test_app_declarations /\
  exists ty : ctype,
    prototype header "codeline_cmp" = Some ty /\
    forall c : category, Tptr ty = param_type c <-> c = rbtree_cmp.
Proof.
  assert (H : "codeline_cmp" ∈ test_app_declarations)
    by (apply (bool_decide_unpack _); vm_compute; exact I).
  split; [exact H |].
  apply (test_comparators_fit_rbtree_cmp "codeline_cmp" H).
Defined.
